(** * amazon_kclpy.v2.processor: the record-processor contract and the
      V1-to-V2 adapter

    A shallow embedding of [amazon_kclpy/v2/processor.py].  The module is
    Python: requests, checkpointers, delegates and the adapter itself are
    heap objects reached through references, attributes are looked up by
    name at run time, and the delegate is arbitrary foreign code.  The
    embedding therefore carries

    - a store of objects addressed by location, so that "the same
      reference" is equality of locations;
    - attribute lookup through the instance dictionary and then the
      class chain, which may fail with [AttributeError];
    - a trace of what the module's own code does (calls it makes, stores
      it performs), kept apart from what foreign code does to the store;
    - the behaviour of foreign callables as a parameter [semantics]. *)

From stdpp Require Import gmap strings list fin_maps.

Open Scope string_scope.
Open Scope list_scope.

(** ** Values and objects *)

Definition loc := positive.

(** Identifier of a function object (its qualified name). *)
Definition fn_id := string.

Inductive value : Type :=
| VNone
| VBool (b : bool)
| VInt (n : Z)
| VStr (s : string)
| VRef (l : loc)                      (* reference to a heap object *)
| VFun (f : fn_id)                    (* plain function *)
| VBound (f : fn_id) (self : loc).    (* method bound to an instance *)

(** A class is the root class [object], or has a name, a (single) base
    and a dictionary of its own.  [object] defines none of the attribute
    names this module uses. *)
Inductive class : Type :=
| object_class
| Class (name : string) (base : class) (dict : gmap string value).

(** Lookup along the chain of bases, nearest class first. *)
Fixpoint class_lookup (c : class) (name : string) : option value :=
  match c with
  | object_class => None
  | Class _ base d =>
      match d !! name with
      | Some v => Some v
      | None => class_lookup base name
      end
  end.

(** Heap cells: class instances with their instance dictionary, and
    lists (a batch of records is a list object). *)
Inductive cell : Type :=
| Instance (c : class) (d : gmap string value)
| PyList (items : list value).

Abbreviation store := (gmap loc cell).

(** A function found in a class through an instance is bound to it;
    any other class attribute is returned as it is. *)
Definition bind_to (self : loc) (v : value) : value :=
  match v with
  | VFun f => VBound f self
  | _ => v
  end.

(** [o.name]: the instance dictionary first, then the class chain.
    [None] stands for Python's [AttributeError].  Scalars, functions and
    lists carry none of the attribute names this module reads. *)
Definition lookup_attr (h : store) (o : value) (name : string)
  : option value :=
  match o with
  | VRef l =>
      match h !! l with
      | Some (Instance c d) =>
          match d !! name with
          | Some v => Some v
          | None => bind_to l <$> class_lookup c name
          end
      | _ => None
      end
  | _ => None
  end.

(** ** Exceptions, outcomes, traces *)

Inductive exn : Type :=
| AttributeError (o : value) (name : string)
| TypeError (v : value)
| Exception (payload : value).

Inductive outcome (A : Type) : Type :=
| Returned (a : A)
| Raised (e : exn).
Arguments Returned {A} a.
Arguments Raised {A} e.

(** What the module's own code does to the outside world. *)
Inductive event : Type :=
| EvNew (l : loc) (c : class)
| EvStore (l : loc) (name : string) (v : value)
| EvCall (callee : value) (args : list value).

Record world : Type := World { heap : store; trace : list event }.

(** Behaviour of foreign code: given the function, its positional
    arguments and the store, it returns or raises and leaves a store. *)
Definition semantics : Type :=
  fn_id -> list value -> store -> outcome value * store.

(** ** The monad of module code *)

Definition M (A : Type) : Type :=
  semantics -> world -> outcome A * world.

Definition ret {A} (a : A) : M A := fun _ w => (Returned a, w).

Definition raise {A} (e : exn) : M A := fun _ w => (Raised e, w).

Definition bind {A B} (m : M A) (k : A -> M B) : M B :=
  fun sem w =>
    match m sem w with
    | (Returned a, w') => k a sem w'
    | (Raised e, w') => (Raised e, w')
    end.

Notation "x <- c1 ;; c2" := (bind c1 (fun x => c2))
  (at level 100, c1 at next level, right associativity).
Notation "c1 ;; c2" := (bind c1 (fun _ => c2))
  (at level 100, right associativity).

(** [o.name] as an expression. *)
Definition getattr (o : value) (name : string) : M value :=
  fun _ w =>
    match lookup_attr (heap w) o name with
    | Some v => (Returned v, w)
    | None => (Raised (AttributeError o name), w)
    end.

(** [o.name = v] as a statement: writes the instance dictionary. *)
Definition setattr (o : value) (name : string) (v : value) : M unit :=
  fun _ w =>
    match o with
    | VRef l =>
        match heap w !! l with
        | Some (Instance c d) =>
            (Returned tt,
             World (<[l := Instance c (<[name := v]> d)]> (heap w))
                   (trace w ++ [EvStore l name v]))
        | _ => (Raised (AttributeError o name), w)
        end
    | _ => (Raised (AttributeError o name), w)
    end.

(** The function behind a callable and the arguments it receives: a
    bound method receives its instance first. *)
Definition callable (callee : value) (args : list value)
  : option (fn_id * list value) :=
  match callee with
  | VFun f => Some (f, args)
  | VBound f self => Some (f, VRef self :: args)
  | _ => None
  end.

(** What foreign code does when [callee(args...)] runs on store [h]. *)
Definition invoke (sem : semantics) (callee : value) (args : list value)
    (h : store) : option (outcome value * store) :=
  match callable callee args with
  | Some (f, actual) => Some (sem f actual h)
  | None => None
  end.

(** [callee(args...)] as an expression. *)
Definition call (callee : value) (args : list value) : M value :=
  fun sem w =>
    match invoke sem callee args (heap w) with
    | Some (r, h') => (r, World h' (trace w ++ [EvCall callee args]))
    | None => (Raised (TypeError callee), w)
    end.

(** Allocation of a bare instance of class [c]. *)
Definition alloc (c : class) : M value :=
  fun _ w =>
    let l := fresh (dom (heap w)) in
    (Returned (VRef l),
     World (<[l := Instance c ∅]> (heap w)) (trace w ++ [EvNew l c])).

(** ** class RecordProcessorBase(object) *)

Module RecordProcessorBase.

Definition initialize (self initialize_input : value) : M value :=
  ret VNone.

Definition process_records (self process_records_input : value)
  : M value :=
  ret VNone.

Definition shutdown (self shutdown_input : value) : M value :=
  ret VNone.

Definition version : value := VInt 2.

Definition cls : class :=
  Class "RecordProcessorBase" object_class
    (<["__metaclass__" := VStr "abc.ABCMeta"]>
     (<["initialize" := VFun "RecordProcessorBase.initialize"]>
      (<["process_records" := VFun "RecordProcessorBase.process_records"]>
       (<["shutdown" := VFun "RecordProcessorBase.shutdown"]>
        (<["version" := version]> ∅))))).

End RecordProcessorBase.

(** ** class V1toV2Processor(RecordProcessorBase) *)

Module V1toV2Processor.

Definition __init__ (self delegate : value) : M value :=
  setattr self "delegate" delegate ;;
  ret VNone.

(** [self.delegate.initialize(initialize_input.shard_id)] *)
Definition initialize (self initialize_input : value) : M value :=
  delegate <- getattr self "delegate" ;;
  f <- getattr delegate "initialize" ;;
  shard_id <- getattr initialize_input "shard_id" ;;
  call f [shard_id] ;;
  ret VNone.

(** [self.delegate.process_records(process_records_input.records,
     process_records_input.checkpointer)] *)
Definition process_records (self process_records_input : value)
  : M value :=
  delegate <- getattr self "delegate" ;;
  f <- getattr delegate "process_records" ;;
  records <- getattr process_records_input "records" ;;
  checkpointer <- getattr process_records_input "checkpointer" ;;
  call f [records; checkpointer] ;;
  ret VNone.

(** [self.delegate.shutdown(shutdown_input.checkpointer,
     shutdown_input.reason)] *)
Definition shutdown (self shutdown_input : value) : M value :=
  delegate <- getattr self "delegate" ;;
  f <- getattr delegate "shutdown" ;;
  checkpointer <- getattr shutdown_input "checkpointer" ;;
  reason <- getattr shutdown_input "reason" ;;
  call f [checkpointer; reason] ;;
  ret VNone.

Definition cls : class :=
  Class "V1toV2Processor" RecordProcessorBase.cls
    (<["__init__" := VFun "V1toV2Processor.__init__"]>
     (<["initialize" := VFun "V1toV2Processor.initialize"]>
      (<["process_records" := VFun "V1toV2Processor.process_records"]>
       (<["shutdown" := VFun "V1toV2Processor.shutdown"]> ∅)))).

(** The expression [V1toV2Processor(delegate)]: a new instance is
    allocated, [__init__] runs on it, and the instance is the value. *)
Definition new (delegate : value) : M value :=
  self <- alloc cls ;;
  __init__ self delegate ;;
  ret self.

End V1toV2Processor.


(** ** The three contract operations, as the driver names them *)

Inductive op : Type := Initialize | ProcessRecords | Shutdown.

Global Instance op_eq_dec : EqDecision op.
Proof. solve_decision. Defined.

(** The adapter's method for a contract operation. *)
Definition adapter (o : op) : value -> value -> M value :=
  match o with
  | Initialize => V1toV2Processor.initialize
  | ProcessRecords => V1toV2Processor.process_records
  | Shutdown => V1toV2Processor.shutdown
  end.

(** The base class's method for a contract operation. *)
Definition base_method (o : op) : value -> value -> M value :=
  match o with
  | Initialize => RecordProcessorBase.initialize
  | ProcessRecords => RecordProcessorBase.process_records
  | Shutdown => RecordProcessorBase.shutdown
  end.

(** Name of the legacy operation that corresponds to a contract
    operation, and the request fields the legacy operation takes, in the
    order of its parameters. *)
Definition legacy_name (o : op) : string :=
  match o with
  | Initialize => "initialize"
  | ProcessRecords => "process_records"
  | Shutdown => "shutdown"
  end.

Definition legacy_fields (o : op) : list string :=
  match o with
  | Initialize => ["shard_id"]
  | ProcessRecords => ["records"; "checkpointer"]
  | Shutdown => ["checkpointer"; "reason"]
  end.

(** Reading several fields of one object, left to right. *)
Fixpoint lookup_attrs (h : store) (o : value) (names : list string)
  : option (list value) :=
  match names with
  | [] => Some []
  | n :: ns =>
      match lookup_attr h o n with
      | Some v => cons v <$> lookup_attrs h o ns
      | None => None
      end
  end.

(** A well-formed situation for operation [o]: [self] holds a delegate
    [d], [d] exposes the legacy operation as a callable [f] running the
    function [g], and the request carries the fields, with values
    [args]. *)
Record ready (h : store) (o : op) (self request d f : value)
    (args : list value) (g : fn_id) (actual : list value) : Prop :=
  Ready {
    ready_delegate : lookup_attr h self "delegate" = Some d;
    ready_method : lookup_attr h d (legacy_name o) = Some f;
    ready_fields : lookup_attrs h request (legacy_fields o) = Some args;
    ready_callable : callable f args = Some (g, actual)
  }.

(** What a caller of the adapter sees of the delegate's outcome. *)
Definition seen_by_caller (r : outcome value) : outcome value :=
  match r with
  | Returned _ => Returned VNone
  | Raised e => Raised e
  end.

(** ** The lifecycle the driver follows *)

(** Modelled from the spec: the driver (the KCLProcess loop of the
    MultiLangDaemon protocol) is not part of this module; only its
    promise is, in the docstring of RecordProcessorBase: [initialize]
    is called once, [process_records] zero or more times, [shutdown]
    when the lease is lost.  The phases are those of the lifecycle
    Created, Initialized, Processing, Shutdown, Terminal; the shutdown
    stage is the [shutdown] call itself, after which the instance is
    terminal. *)
Inductive phase : Type := Created | Initialized | Processing | Terminal.

Global Instance phase_eq_dec : EqDecision phase.
Proof. solve_decision. Defined.

(** Modelled from the spec: the transition a driver call causes, if the
    lifecycle allows the call in that phase. *)
Definition step (p : phase) (c : op) : option phase :=
  match p, c with
  | Created, Initialize => Some Initialized
  | Initialized, ProcessRecords => Some Processing
  | Processing, ProcessRecords => Some Processing
  | Initialized, Shutdown => Some Terminal
  | Processing, Shutdown => Some Terminal
  | _, _ => None
  end.

Fixpoint run (p : phase) (s : list op) : option phase :=
  match s with
  | [] => Some p
  | c :: s' =>
      match step p c with
      | Some p' => run p' s'
      | None => None
      end
  end.

(** Modelled from the spec: a valid driver call sequence on an instance
    is one the lifecycle accepts from [Created] and that has put the
    instance to use (the driver's pattern begins with [initialize]). *)
Definition valid_sequence (s : list op) : Prop :=
  exists p, run Created s = Some p /\ p <> Created.

(** Number of calls of operation [c] in a sequence. *)
Fixpoint count (c : op) (s : list op) : nat :=
  match s with
  | [] => 0
  | x :: s' => (if decide (c = x) then 1 else 0) + count c s'
  end.

(** The pattern the docstring of [RecordProcessorBase] gives: one
    [initialize], then any number of [process_records], then possibly
    one [shutdown]. *)
Definition pattern (n : nat) (with_shutdown : bool) : list op :=
  Initialize :: repeat ProcessRecords n
    ++ (if with_shutdown then [Shutdown] else []).

(** Classes that derive from [RecordProcessorBase], directly or through
    other classes, without defining [name] again on the way. *)
Inductive derives_keeping (name : string) : class -> Prop :=
| derives_base : derives_keeping name RecordProcessorBase.cls
| derives_sub (n : string) (base : class) (dict : gmap string value) :
    derives_keeping name base ->
    dict !! name = None ->
    derives_keeping name (Class n base dict).

(** ** A concrete configuration *)

Module Example.

(** A record processor written against the older interface. *)
Definition legacy_cls : class :=
  Class "LegacyProcessor" object_class
    (<["initialize" := VFun "LegacyProcessor.initialize"]>
     (<["process_records" := VFun "LegacyProcessor.process_records"]>
      (<["shutdown" := VFun "LegacyProcessor.shutdown"]> ∅))).

Definition plain (name : string) : class := Class name object_class ∅.

Definition delegate_loc : loc := 1%positive.
Definition adapter_loc : loc := 2%positive.
Definition init_input_loc : loc := 3%positive.
Definition records_loc : loc := 4%positive.
Definition checkpointer_loc : loc := 5%positive.
Definition process_input_loc : loc := 6%positive.
Definition shutdown_input_loc : loc := 7%positive.
Definition record_loc : loc := 8%positive.

Definition h0 : store :=
  <[delegate_loc := Instance legacy_cls ∅]>
  (<[adapter_loc :=
       Instance V1toV2Processor.cls (<["delegate" := VRef delegate_loc]> ∅)]>
  (<[init_input_loc :=
       Instance (plain "InitializeInput")
         (<["shard_id" := VStr "shard-0001"]>
          (<["sequence_number" := VStr "49590338271490256608559692538361571095921575989136588898"]> ∅))]>
  (<[records_loc := PyList [VRef record_loc]]>
  (<[checkpointer_loc := Instance (plain "Checkpointer") ∅]>
  (<[process_input_loc :=
       Instance (plain "ProcessRecordsInput")
         (<["records" := VRef records_loc]>
          (<["checkpointer" := VRef checkpointer_loc]>
           (<["millis_behind_latest" := VInt 1500]> ∅)))]>
  (<[shutdown_input_loc :=
       Instance (plain "ShutdownInput")
         (<["checkpointer" := VRef checkpointer_loc]>
          (<["reason" := VStr "TERMINATE"]> ∅))]>
  (<[record_loc :=
       Instance (plain "Record")
         (<["partition_key" := VStr "pk-7"]>
          (<["sequence_number" := VStr "21269319989652663814458848515492872193"]>
           (<["data" := VStr "aGVsbG8="]> ∅)))]> ∅))))))).

Definition w0 : world := World h0 [].

(** The delegate's code: every method notes its arguments in the
    delegate's own cell; [initialize] returns a number,
    [process_records] returns nothing, [shutdown] fails. *)
Definition note (args : list value) (h : store) : store :=
  <[delegate_loc :=
      Instance legacy_cls (<["last_args" := default VNone (last args)]> ∅)]> h.

Definition legacy_sem : semantics :=
  fun f args h =>
    if decide (f = "LegacyProcessor.initialize") then
      (Returned (VInt 42), note args h)
    else if decide (f = "LegacyProcessor.process_records") then
      (Returned VNone, note args h)
    else
      (Raised (Exception (VStr "checkpoint failed")), note args h).

End Example.


(** ** Ill-formed situations *)


Module Faulty.

(** A class that is no record processor: its [initialize] is a number
    and it has no [process_records] and no [shutdown]. *)
Definition broken_cls : class :=
  Class "Broken" object_class (<["initialize" := VInt 5]> ∅).

Definition broken_loc : loc := 1%positive.
Definition adapter_loc : loc := 2%positive.
Definition bare_loc : loc := 3%positive.
Definition init_input_loc : loc := 4%positive.
Definition legacy_loc : loc := 5%positive.
Definition partial_input_loc : loc := 6%positive.

(** [adapter_loc] holds the broken delegate; [bare_loc] is an instance
    of the adapter class on which [__init__] never ran;
    [partial_input_loc] is a request with a checkpointer and nothing
    else. *)
Definition h : store :=
  <[broken_loc := Instance broken_cls ∅]>
  (<[adapter_loc :=
       Instance V1toV2Processor.cls (<["delegate" := VRef broken_loc]> ∅)]>
  (<[bare_loc := Instance V1toV2Processor.cls ∅]>
  (<[init_input_loc :=
       Instance (Example.plain "InitializeInput")
         (<["shard_id" := VStr "shard-0001"]> ∅)]>
  (<[legacy_loc := Instance Example.legacy_cls ∅]>
  (<[partial_input_loc :=
       Instance (Example.plain "ShutdownInput")
         (<["checkpointer" := VNone]> ∅)]> ∅))))).

Definition w : world := World h [].

End Faulty.

(** * Properties *)

(** ** Attribute lookup *)

(** Lookup on a reference depends on the referenced cell only. *)
Lemma lookup_attr_same_cell (h h' : store) (l : loc) (name : string) :
  h' !! l = h !! l ->
  lookup_attr h' (VRef l) name = lookup_attr h (VRef l) name.
Proof. intros E. unfold lookup_attr. rewrite E. reflexivity. Qed.

(** Only instances have attributes. *)
Lemma lookup_attr_instance (h : store) (o : value) (name : string)
    (v : value) :
  lookup_attr h o name = Some v ->
  exists l c d, o = VRef l /\ h !! l = Some (Instance c d).
Proof.
  unfold lookup_attr. intros E.
  destruct o as [| | | |l| |]; try discriminate.
  destruct (h !! l) as [[c d|items]|] eqn:Hl; try discriminate.
  now exists l, c, d.
Qed.

Lemma lookup_attrs_one (h : store) (o : value) (a : string)
    (args : list value) :
  lookup_attrs h o [a] = Some args ->
  exists x, lookup_attr h o a = Some x /\ args = [x].
Proof.
  simpl. destruct (lookup_attr h o a) as [x|]; [|discriminate].
  simpl. intros [= <-]. now exists x.
Qed.

Lemma lookup_attrs_two (h : store) (o : value) (a b : string)
    (args : list value) :
  lookup_attrs h o [a; b] = Some args ->
  exists x y,
    lookup_attr h o a = Some x /\ lookup_attr h o b = Some y /\
    args = [x; y].
Proof.
  simpl. destruct (lookup_attr h o a) as [x|]; [|discriminate].
  destruct (lookup_attr h o b) as [y|]; [|discriminate].
  simpl. intros [= <-]. now exists x, y.
Qed.

(** ** Running the adapter's methods *)

Ltac run_method :=
  unfold bind, getattr, call, invoke, ret; cbn beta iota.

Ltac use_lookups :=
  repeat (match goal with
          | H : lookup_attr _ _ _ = Some _ |- _ => rewrite H; clear H
          | H : callable _ _ = Some _ |- _ => rewrite H; clear H
          end; cbn beta iota).

Lemma initialize_run (sem : semantics) (self initialize_input : value)
    (w : world) (d f s : value) (g : fn_id) (actual : list value) :
  lookup_attr (heap w) self "delegate" = Some d ->
  lookup_attr (heap w) d "initialize" = Some f ->
  lookup_attr (heap w) initialize_input "shard_id" = Some s ->
  callable f [s] = Some (g, actual) ->
  V1toV2Processor.initialize self initialize_input sem w =
    (seen_by_caller (sem g actual (heap w)).1,
     World (sem g actual (heap w)).2 (trace w ++ [EvCall f [s]])).
Proof.
  intros Hd Hf Hs Hc. unfold V1toV2Processor.initialize. run_method.
  use_lookups. now destruct (sem g actual (heap w)) as [[r|e] h'].
Qed.

Lemma process_records_run (sem : semantics)
    (self process_records_input : value) (w : world) (d f R C : value)
    (g : fn_id) (actual : list value) :
  lookup_attr (heap w) self "delegate" = Some d ->
  lookup_attr (heap w) d "process_records" = Some f ->
  lookup_attr (heap w) process_records_input "records" = Some R ->
  lookup_attr (heap w) process_records_input "checkpointer" = Some C ->
  callable f [R; C] = Some (g, actual) ->
  V1toV2Processor.process_records self process_records_input sem w =
    (seen_by_caller (sem g actual (heap w)).1,
     World (sem g actual (heap w)).2 (trace w ++ [EvCall f [R; C]])).
Proof.
  intros Hd Hf HR HC Hc. unfold V1toV2Processor.process_records.
  run_method. use_lookups.
  now destruct (sem g actual (heap w)) as [[r|e] h'].
Qed.

Lemma shutdown_run (sem : semantics) (self shutdown_input : value)
    (w : world) (d f C r : value) (g : fn_id) (actual : list value) :
  lookup_attr (heap w) self "delegate" = Some d ->
  lookup_attr (heap w) d "shutdown" = Some f ->
  lookup_attr (heap w) shutdown_input "checkpointer" = Some C ->
  lookup_attr (heap w) shutdown_input "reason" = Some r ->
  callable f [C; r] = Some (g, actual) ->
  V1toV2Processor.shutdown self shutdown_input sem w =
    (seen_by_caller (sem g actual (heap w)).1,
     World (sem g actual (heap w)).2 (trace w ++ [EvCall f [C; r]])).
Proof.
  intros Hd Hf HC Hr Hc. unfold V1toV2Processor.shutdown.
  run_method. use_lookups.
  now destruct (sem g actual (heap w)) as [[v|e] h'].
Qed.

(** The three methods at once, in a well-formed situation. *)
Lemma adapter_run (o : op) (sem : semantics) (self request : value)
    (w : world) (d f : value) (args : list value) (g : fn_id)
    (actual : list value) :
  ready (heap w) o self request d f args g actual ->
  adapter o self request sem w =
    (seen_by_caller (sem g actual (heap w)).1,
     World (sem g actual (heap w)).2 (trace w ++ [EvCall f args])).
Proof.
  intros [Hd Hf Hargs Hc].
  destruct o; cbn [legacy_name legacy_fields adapter] in *.
  - apply lookup_attrs_one in Hargs as (s & Hs & ->).
    now apply initialize_run with (d := d).
  - apply lookup_attrs_two in Hargs as (R & C & HR & HC & ->).
    now apply process_records_run with (d := d).
  - apply lookup_attrs_two in Hargs as (C & r & HC & Hr & ->).
    now apply shutdown_run with (d := d).
Qed.

Lemma lookup_attrs_one_none (h : store) (o : value) (a : string) :
  lookup_attrs h o [a] = None -> lookup_attr h o a = None.
Proof.
  cbn [lookup_attrs]. destruct (lookup_attr h o a); [discriminate|easy].
Qed.

Lemma lookup_attrs_two_none (h : store) (o : value) (a b : string) :
  lookup_attrs h o [a; b] = None ->
  lookup_attr h o a = None \/
  exists x, lookup_attr h o a = Some x /\ lookup_attr h o b = None.
Proof.
  cbn [lookup_attrs]. destruct (lookup_attr h o a) as [x|]; [|now left].
  destruct (lookup_attr h o b); [discriminate|].
  intros _. right. now exists x.
Qed.

Ltac unfold_adapter :=
  unfold adapter, V1toV2Processor.initialize,
    V1toV2Processor.process_records, V1toV2Processor.shutdown;
  run_method.

Ltac step_lookups :=
  repeat (match goal with
          | H : lookup_attr _ _ _ = _ |- _ => rewrite H; clear H
          | H : callable _ _ = _ |- _ => rewrite H; clear H
          end; cbn beta iota).

(** Outside a well-formed situation a method raises before it reaches
    the delegate, and the world is as it was. *)
Lemma adapter_cases (o : op) (sem : semantics) (self request : value)
    (w : world) :
  (exists d f args g actual,
      ready (heap w) o self request d f args g actual) \/
  (exists e, adapter o self request sem w = (Raised e, w)).
Proof.
  destruct (lookup_attr (heap w) self "delegate") as [d|] eqn:Hd.
  2: { right. destruct o; unfold_adapter; step_lookups; eauto. }
  destruct (lookup_attr (heap w) d (legacy_name o)) as [f|] eqn:Hf.
  2: { right. destruct o; cbn [legacy_name] in Hf; unfold_adapter;
       step_lookups; eauto. }
  destruct (lookup_attrs (heap w) request (legacy_fields o))
    as [args|] eqn:Hargs.
  2: { right. destruct o; cbn [legacy_name legacy_fields] in Hf, Hargs.
       - apply lookup_attrs_one_none in Hargs.
         unfold_adapter; step_lookups; eauto.
       - apply lookup_attrs_two_none in Hargs as [HR | (R & HR & HC)];
           unfold_adapter; step_lookups; eauto.
       - apply lookup_attrs_two_none in Hargs as [HC | (C & HC & Hr)];
           unfold_adapter; step_lookups; eauto. }
  destruct (callable f args) as [[g actual]|] eqn:Hc.
  - left. exists d, f, args, g, actual. now constructor.
  - right. destruct o; cbn [legacy_name legacy_fields] in Hf, Hargs.
    + apply lookup_attrs_one in Hargs as (s & Hs & ->).
      unfold_adapter; step_lookups; eauto.
    + apply lookup_attrs_two in Hargs as (R & C & HR & HC & ->).
      unfold_adapter; step_lookups; eauto.
    + apply lookup_attrs_two in Hargs as (C & r & HC & Hr & ->).
      unfold_adapter; step_lookups; eauto.
Qed.

(** ** The adapter forwards the fields of the request *)

(** C1.  For a request whose [records] field is [R] and whose
    [checkpointer] field is [C], the adapter's [process_records] makes
    one call, to the delegate's [process_records], with the argument
    list [R; C]; the delegate's function receives exactly these two
    values (after the instance, for a bound method) and the store it
    leaves is the store the adapter leaves.  No other field of the
    request plays a part: every request with the same two fields gives
    the same run. *)
Theorem process_records_forwards_records_and_checkpointer
    (sem : semantics) (self request : value) (w : world)
    (d f R C : value) (g : fn_id) (actual : list value) :
  lookup_attr (heap w) self "delegate" = Some d ->
  lookup_attr (heap w) d "process_records" = Some f ->
  lookup_attr (heap w) request "records" = Some R ->
  lookup_attr (heap w) request "checkpointer" = Some C ->
  callable f [R; C] = Some (g, actual) ->
  let result := V1toV2Processor.process_records self request sem w in
  trace result.2 = trace w ++ [EvCall f [R; C]] /\
  heap result.2 = (sem g actual (heap w)).2 /\
  (actual = [R; C] \/ exists l, actual = [VRef l; R; C]) /\
  forall request',
    lookup_attr (heap w) request' "records" = Some R ->
    lookup_attr (heap w) request' "checkpointer" = Some C ->
    V1toV2Processor.process_records self request' sem w = result.
Proof.
  intros Hd Hf HR HC Hc result. subst result.
  rewrite (process_records_run sem self request w d f R C g actual)
    by assumption.
  repeat split.
  - destruct f; simpl in Hc; try discriminate;
      injection Hc as <- <-; eauto.
  - intros request' HR' HC'.
    now apply process_records_run with (d := d).
Qed.

Lemma process_records_forwards_records_and_checkpointer_witness :
  let result :=
    V1toV2Processor.process_records (VRef Example.adapter_loc)
      (VRef Example.process_input_loc) Example.legacy_sem Example.w0 in
  lookup_attr Example.h0 (VRef Example.process_input_loc)
    "millis_behind_latest" = Some (VInt 1500) /\
  trace result.2 =
    [EvCall (VBound "LegacyProcessor.process_records" Example.delegate_loc)
       [VRef Example.records_loc; VRef Example.checkpointer_loc]].
Proof.
  split; [reflexivity|].
  apply (process_records_forwards_records_and_checkpointer
           Example.legacy_sem (VRef Example.adapter_loc)
           (VRef Example.process_input_loc) Example.w0
           (VRef Example.delegate_loc)
           (VBound "LegacyProcessor.process_records" Example.delegate_loc)
           (VRef Example.records_loc) (VRef Example.checkpointer_loc)
           "LegacyProcessor.process_records"
           [VRef Example.delegate_loc; VRef Example.records_loc;
            VRef Example.checkpointer_loc]);
    reflexivity.
Defined.

(** C2.  For a request whose [shard_id] field is [s] (for instance the
    string "shard-0001"), the adapter's [initialize] makes one call, to
    the delegate's [initialize], with the single argument [s]. *)
Theorem initialize_forwards_shard_id
    (sem : semantics) (self request : value) (w : world)
    (d f s : value) (g : fn_id) (actual : list value) :
  lookup_attr (heap w) self "delegate" = Some d ->
  lookup_attr (heap w) d "initialize" = Some f ->
  lookup_attr (heap w) request "shard_id" = Some s ->
  callable f [s] = Some (g, actual) ->
  let result := V1toV2Processor.initialize self request sem w in
  trace result.2 = trace w ++ [EvCall f [s]] /\
  heap result.2 = (sem g actual (heap w)).2 /\
  (actual = [s] \/ exists l, actual = [VRef l; s]).
Proof.
  intros Hd Hf Hs Hc result. subst result.
  rewrite (initialize_run sem self request w d f s g actual)
    by assumption.
  repeat split.
  destruct f; simpl in Hc; try discriminate;
    injection Hc as <- <-; eauto.
Qed.

Lemma initialize_forwards_shard_id_witness :
  let result :=
    V1toV2Processor.initialize (VRef Example.adapter_loc)
      (VRef Example.init_input_loc) Example.legacy_sem Example.w0 in
  trace result.2 =
    [EvCall (VBound "LegacyProcessor.initialize" Example.delegate_loc)
       [VStr "shard-0001"]].
Proof.
  apply (initialize_forwards_shard_id
           Example.legacy_sem (VRef Example.adapter_loc)
           (VRef Example.init_input_loc) Example.w0
           (VRef Example.delegate_loc)
           (VBound "LegacyProcessor.initialize" Example.delegate_loc)
           (VStr "shard-0001")
           "LegacyProcessor.initialize"
           [VRef Example.delegate_loc; VStr "shard-0001"]);
    reflexivity.
Defined.

(** C3.  For a request whose [checkpointer] field is [C] and whose
    [reason] field is [r] (for instance the string "TERMINATE"), the
    adapter's [shutdown] makes one call, to the delegate's [shutdown],
    with the argument list [C; r], in that order. *)
Theorem shutdown_forwards_checkpointer_and_reason
    (sem : semantics) (self request : value) (w : world)
    (d f C r : value) (g : fn_id) (actual : list value) :
  lookup_attr (heap w) self "delegate" = Some d ->
  lookup_attr (heap w) d "shutdown" = Some f ->
  lookup_attr (heap w) request "checkpointer" = Some C ->
  lookup_attr (heap w) request "reason" = Some r ->
  callable f [C; r] = Some (g, actual) ->
  let result := V1toV2Processor.shutdown self request sem w in
  trace result.2 = trace w ++ [EvCall f [C; r]] /\
  heap result.2 = (sem g actual (heap w)).2 /\
  (actual = [C; r] \/ exists l, actual = [VRef l; C; r]).
Proof.
  intros Hd Hf HC Hr Hc result. subst result.
  rewrite (shutdown_run sem self request w d f C r g actual)
    by assumption.
  repeat split.
  destruct f; simpl in Hc; try discriminate;
    injection Hc as <- <-; eauto.
Qed.

Lemma shutdown_forwards_checkpointer_and_reason_witness :
  let result :=
    V1toV2Processor.shutdown (VRef Example.adapter_loc)
      (VRef Example.shutdown_input_loc) Example.legacy_sem Example.w0 in
  trace result.2 =
    [EvCall (VBound "LegacyProcessor.shutdown" Example.delegate_loc)
       [VRef Example.checkpointer_loc; VStr "TERMINATE"]].
Proof.
  apply (shutdown_forwards_checkpointer_and_reason
           Example.legacy_sem (VRef Example.adapter_loc)
           (VRef Example.shutdown_input_loc) Example.w0
           (VRef Example.delegate_loc)
           (VBound "LegacyProcessor.shutdown" Example.delegate_loc)
           (VRef Example.checkpointer_loc) (VStr "TERMINATE")
           "LegacyProcessor.shutdown"
           [VRef Example.delegate_loc; VRef Example.checkpointer_loc;
            VStr "TERMINATE"]);
    reflexivity.
Defined.

(** ** What the caller of the adapter gets back *)

(** C4, as stated, fails: the delegate's [initialize] returns 42 here,
    and the adapter's [initialize] returns [None], not 42. *)
Lemma adapter_discards_delegate_result :
  ready Example.h0 Initialize (VRef Example.adapter_loc)
    (VRef Example.init_input_loc) (VRef Example.delegate_loc)
    (VBound "LegacyProcessor.initialize" Example.delegate_loc)
    [VStr "shard-0001"] "LegacyProcessor.initialize"
    [VRef Example.delegate_loc; VStr "shard-0001"] /\
  (Example.legacy_sem "LegacyProcessor.initialize"
     [VRef Example.delegate_loc; VStr "shard-0001"] Example.h0).1
  = Returned (VInt 42) /\
  (V1toV2Processor.initialize (VRef Example.adapter_loc)
     (VRef Example.init_input_loc) Example.legacy_sem Example.w0).1
  = Returned VNone /\
  (V1toV2Processor.initialize (VRef Example.adapter_loc)
     (VRef Example.init_input_loc) Example.legacy_sem Example.w0).1
  <> (Example.legacy_sem "LegacyProcessor.initialize"
        [VRef Example.delegate_loc; VStr "shard-0001"] Example.h0).1.
Proof.
  split; [now constructor|].
  split; [reflexivity|].
  split; [reflexivity|].
  vm_compute. discriminate.
Qed.

(** C4, amended.  In a well-formed situation each of the three methods
    raises exactly what the delegate's operation raises, the same
    exception, and raises in no other case; when the delegate's
    operation returns, whatever it returns, the method returns
    [None]. *)
Theorem adapter_propagates_exceptions
    (o : op) (sem : semantics) (self request : value) (w : world)
    (d f : value) (args : list value) (g : fn_id)
    (actual : list value) :
  ready (heap w) o self request d f args g actual ->
  (forall e, (sem g actual (heap w)).1 = Raised e ->
             (adapter o self request sem w).1 = Raised e) /\
  (forall e, (adapter o self request sem w).1 = Raised e ->
             (sem g actual (heap w)).1 = Raised e) /\
  (forall v, (sem g actual (heap w)).1 = Returned v ->
             (adapter o self request sem w).1 = Returned VNone).
Proof.
  intros Hready. rewrite (adapter_run o sem self request w _ _ _ _ _ Hready).
  simpl. destruct (sem g actual (heap w)) as [[v|e'] h']; simpl.
  - repeat split; intros; congruence.
  - repeat split; intros; congruence.
Qed.

Lemma adapter_propagates_exceptions_witness :
  (V1toV2Processor.shutdown (VRef Example.adapter_loc)
     (VRef Example.shutdown_input_loc) Example.legacy_sem Example.w0).1
  = Raised (Exception (VStr "checkpoint failed")).
Proof.
  apply (adapter_propagates_exceptions Shutdown
           Example.legacy_sem (VRef Example.adapter_loc)
           (VRef Example.shutdown_input_loc) Example.w0
           (VRef Example.delegate_loc)
           (VBound "LegacyProcessor.shutdown" Example.delegate_loc)
           [VRef Example.checkpointer_loc; VStr "TERMINATE"]
           "LegacyProcessor.shutdown"
           [VRef Example.delegate_loc; VRef Example.checkpointer_loc;
            VStr "TERMINATE"]).
  - now constructor.
  - reflexivity.
Defined.

(** C8.  Each of the three methods, on every input, either raises or
    returns [None]; and it does return [None] whenever the situation is
    well-formed and the delegate's operation returns. *)
Theorem adapter_returns_none
    (o : op) (sem : semantics) (self request : value) (w : world) :
  (forall v, (adapter o self request sem w).1 = Returned v -> v = VNone) /\
  ((adapter o self request sem w).1 = Returned VNone \/
   exists e, (adapter o self request sem w).1 = Raised e) /\
  (forall d f args g actual v,
      ready (heap w) o self request d f args g actual ->
      (sem g actual (heap w)).1 = Returned v ->
      (adapter o self request sem w).1 = Returned VNone).
Proof.
  destruct (adapter_cases o sem self request w)
    as [(d & f & args & g & actual & Hready) | (e & He)].
  - rewrite (adapter_run o sem self request w _ _ _ _ _ Hready). simpl.
    split; [|split].
    + destruct (sem g actual (heap w)) as [[r|e] h']; simpl; congruence.
    + destruct (sem g actual (heap w)) as [[r|e] h']; simpl; eauto.
    + intros d' f' args' g' actual' v [Hd' Hf' Ha' Hc'] Hv.
      destruct Hready as [Hd Hf Ha Hc].
      assert (d' = d) by congruence; subst d'.
      assert (f' = f) by congruence; subst f'.
      assert (args' = args) by congruence; subst args'.
      assert (g' = g /\ actual' = actual) as [-> ->]
        by (split; congruence).
      now rewrite Hv.
  - rewrite He. simpl. split; [|split].
    + discriminate.
    + eauto.
    + intros d f args g actual v Hready Hv.
      rewrite (adapter_run o sem self request w _ _ _ _ _ Hready) in He.
      rewrite Hv in He. discriminate.
Qed.

Lemma adapter_returns_none_witness :
  (V1toV2Processor.initialize (VRef Example.adapter_loc)
     (VRef Example.init_input_loc) Example.legacy_sem Example.w0).1
  = Returned VNone.
Proof.
  pose proof (adapter_returns_none Initialize Example.legacy_sem
                (VRef Example.adapter_loc) (VRef Example.init_input_loc)
                Example.w0) as (_ & _ & H).
  apply (H (VRef Example.delegate_loc)
           (VBound "LegacyProcessor.initialize" Example.delegate_loc)
           [VStr "shard-0001"] "LegacyProcessor.initialize"
           [VRef Example.delegate_loc; VStr "shard-0001"] (VInt 42)).
  - now constructor.
  - reflexivity.
Defined.

(** C10.  The base class's three methods do nothing and return [None]:
    on every input and in every world the outcome is [None] and the
    world, store and trace, is the one they were given. *)
Theorem base_methods_are_noops
    (o : op) (sem : semantics) (self input : value) (w : world) :
  base_method o self input sem w = (Returned VNone, w).
Proof. destruct o; reflexivity. Qed.

(** ** Construction *)

(** The whole run of [V1toV2Processor(d)]. *)
Lemma new_run (sem : semantics) (d : value) (w : world) :
  let l := fresh (dom (heap w)) in
  V1toV2Processor.new d sem w =
    (Returned (VRef l),
     World (<[l := Instance V1toV2Processor.cls (<["delegate" := d]> ∅)]>
              (heap w))
           (trace w ++ [EvNew l V1toV2Processor.cls;
                        EvStore l "delegate" d])).
Proof.
  intros l.
  unfold V1toV2Processor.new, V1toV2Processor.__init__, bind, alloc,
    setattr, ret.
  cbn beta iota zeta. fold l. cbn [heap trace].
  rewrite lookup_insert_eq. cbn beta iota.
  rewrite insert_insert_eq. rewrite <- app_assoc. reflexivity.
Qed.

(** C5.  [V1toV2Processor(d)] succeeds for every value [d] whatever its
    shape, returns a new instance whose [delegate] attribute is [d]
    itself, leaves every object that existed as it was (nothing is
    copied, [d]'s object included), and does nothing else: one
    allocation, one store, no call. *)
Theorem new_holds_the_reference
    (sem : semantics) (d : value) (w : world) :
  let l := fresh (dom (heap w)) in
  let result := V1toV2Processor.new d sem w in
  result.1 = Returned (VRef l) /\
  heap w !! l = None /\
  heap result.2 =
    <[l := Instance V1toV2Processor.cls (<["delegate" := d]> ∅)]> (heap w) /\
  lookup_attr (heap result.2) (VRef l) "delegate" = Some d /\
  (forall l', l' <> l -> heap result.2 !! l' = heap w !! l') /\
  trace result.2 =
    trace w ++ [EvNew l V1toV2Processor.cls; EvStore l "delegate" d].
Proof.
  intros l result. subst result. rewrite new_run. fold l.
  cbn [fst snd heap trace].
  assert (Hfresh : heap w !! l = None).
  { apply not_elem_of_dom. apply is_fresh. }
  repeat split; try assumption.
  - unfold lookup_attr. rewrite lookup_insert_eq.
    now rewrite lookup_insert_eq.
  - intros l' Hne. now apply lookup_insert_ne.
Qed.

(** ** The adapter only forwards *)

(** C6.  In a well-formed situation each of the three methods adds to
    the trace one event, the call of the delegate's corresponding
    operation, whether that call returns or raises: no store, no other
    call, no second attempt.  The store it leaves is the store the
    delegate's code left; so every cell the delegate's code left alone,
    the adapter's own and the request's among them, is as it was, and
    the adapter still holds the same delegate.  On any input at all a
    method adds no event or that single call. *)
Theorem adapter_is_pure_forward
    (o : op) (sem : semantics) (self request : value) (w : world)
    (d f : value) (args : list value) (g : fn_id)
    (actual : list value) :
  ready (heap w) o self request d f args g actual ->
  let result := adapter o self request sem w in
  let after_delegate := (sem g actual (heap w)).2 in
  trace result.2 = trace w ++ [EvCall f args] /\
  heap result.2 = after_delegate /\
  (forall l, after_delegate !! l = heap w !! l ->
             heap result.2 !! l = heap w !! l) /\
  (forall l, self = VRef l -> after_delegate !! l = heap w !! l ->
             lookup_attr (heap result.2) self "delegate" = Some d) /\
  (forall o' self' request',
      let result' := adapter o' self' request' sem w in
      trace result'.2 = trace w \/
      exists f' args', trace result'.2 = trace w ++ [EvCall f' args']).
Proof.
  intros Hready result after_delegate. subst result after_delegate.
  rewrite (adapter_run o sem self request w _ _ _ _ _ Hready).
  cbn [fst snd heap trace].
  split; [reflexivity|]. split; [reflexivity|].
  split; [tauto|]. split.
  - intros l -> Hl. rewrite (lookup_attr_same_cell _ _ _ _ Hl).
    apply Hready.
  - intros o' self' request'. cbv zeta.
    destruct (adapter_cases o' sem self' request' w)
      as [(d' & f' & args' & g' & actual' & Hready') | (e & He)].
    + right. exists f', args'.
      now rewrite (adapter_run o' sem self' request' w _ _ _ _ _ Hready').
    + left. now rewrite He.
Qed.

Lemma adapter_is_pure_forward_witness :
  let result :=
    adapter ProcessRecords (VRef Example.adapter_loc)
      (VRef Example.process_input_loc) Example.legacy_sem Example.w0 in
  trace result.2 =
    [EvCall (VBound "LegacyProcessor.process_records" Example.delegate_loc)
       [VRef Example.records_loc; VRef Example.checkpointer_loc]] /\
  heap result.2 !! Example.process_input_loc =
    Example.h0 !! Example.process_input_loc /\
  lookup_attr (heap result.2) (VRef Example.adapter_loc) "delegate" =
    Some (VRef Example.delegate_loc).
Proof.
  pose proof (adapter_is_pure_forward ProcessRecords
                Example.legacy_sem (VRef Example.adapter_loc)
                (VRef Example.process_input_loc) Example.w0
                (VRef Example.delegate_loc)
                (VBound "LegacyProcessor.process_records"
                   Example.delegate_loc)
                [VRef Example.records_loc; VRef Example.checkpointer_loc]
                "LegacyProcessor.process_records"
                [VRef Example.delegate_loc; VRef Example.records_loc;
                 VRef Example.checkpointer_loc])
    as H.
  destruct H as (Htrace & _ & Hframe & Hdelegate & _);
    [now constructor|].
  split; [exact Htrace|]. split.
  - apply Hframe. reflexivity.
  - apply (Hdelegate Example.adapter_loc); reflexivity.
Defined.

(** ** The version attribute *)

Lemma derives_keeping_version (c : class) :
  derives_keeping "version" c ->
  class_lookup c "version" = Some (VInt 2).
Proof.
  induction 1 as [|n base dict _ IH Hnone].
  - reflexivity.
  - simpl. now rewrite Hnone.
Qed.

Lemma adapter_class_keeps_version :
  derives_keeping "version" V1toV2Processor.cls.
Proof. apply derives_sub; [apply derives_base | reflexivity]. Qed.

(** The store after a method is the store before it, or the store some
    call of foreign code left. *)
Lemma adapter_heap (o : op) (sem : semantics) (self request : value)
    (w : world) :
  heap (adapter o self request sem w).2 = heap w \/
  exists g actual,
    heap (adapter o self request sem w).2 = (sem g actual (heap w)).2.
Proof.
  destruct (adapter_cases o sem self request w)
    as [(d & f & args & g & actual & Hready) | (e & He)].
  - right. exists g, actual.
    now rewrite (adapter_run o sem self request w _ _ _ _ _ Hready).
  - left. now rewrite He.
Qed.

(** C9.  The class attribute [version] is 2: it is found with value 2 on
    the class [V1toV2Processor], on every class that derives from
    [RecordProcessorBase] without defining it again, and through every
    instance of such a class whose own dictionary does not define it, a
    newly built adapter among them.  No method of the adapter changes
    what an object shows as [version], unless foreign code called on the
    way writes to that object. *)
Theorem version_is_two :
  RecordProcessorBase.version = VInt 2 /\
  class_lookup V1toV2Processor.cls "version" = Some (VInt 2) /\
  (forall c, derives_keeping "version" c ->
             class_lookup c "version" = Some (VInt 2)) /\
  (forall (h : store) l c (dict : gmap string value),
      derives_keeping "version" c ->
      h !! l = Some (Instance c dict) ->
      dict !! "version" = None ->
      lookup_attr h (VRef l) "version" = Some (VInt 2)) /\
  (forall sem d w,
      let result := V1toV2Processor.new d sem w in
      exists l, result.1 = Returned (VRef l) /\
                lookup_attr (heap result.2) (VRef l) "version"
                = Some (VInt 2)) /\
  (forall o sem self request w l,
      (forall g actual, (sem g actual (heap w)).2 !! l = heap w !! l) ->
      lookup_attr (heap (adapter o self request sem w).2) (VRef l) "version"
      = lookup_attr (heap w) (VRef l) "version").
Proof.
  split; [reflexivity|]. split; [reflexivity|].
  split; [exact derives_keeping_version|]. split; [|split].
  - intros h l c dict Hc Hl Hnone. unfold lookup_attr.
    rewrite Hl, Hnone, (derives_keeping_version c Hc). reflexivity.
  - intros sem d w result. subst result. rewrite new_run.
    eexists. split; [reflexivity|]. cbn [snd heap].
    unfold lookup_attr. rewrite lookup_insert_eq. reflexivity.
  - intros o sem self request w l Hsem.
    apply lookup_attr_same_cell.
    destruct (adapter_heap o sem self request w) as [-> | (g & actual & ->)].
    + reflexivity.
    + apply Hsem.
Qed.

Lemma version_is_two_witness :
  lookup_attr Example.h0 (VRef Example.adapter_loc) "version"
  = Some (VInt 2) /\
  lookup_attr
    (heap (adapter Initialize (VRef Example.adapter_loc)
             (VRef Example.init_input_loc) Example.legacy_sem
             Example.w0).2)
    (VRef Example.adapter_loc) "version"
  = Some (VInt 2).
Proof.
  destruct version_is_two as (_ & _ & _ & Hinst & _ & Hkeep).
  assert (H0 : lookup_attr Example.h0 (VRef Example.adapter_loc) "version"
               = Some (VInt 2)).
  { apply (Hinst Example.h0 Example.adapter_loc V1toV2Processor.cls
             (<["delegate" := VRef Example.delegate_loc]> ∅)).
    - exact adapter_class_keeps_version.
    - reflexivity.
    - reflexivity. }
  split; [exact H0|].
  rewrite <- H0. apply Hkeep.
  intros g actual. unfold Example.legacy_sem, Example.note.
  repeat case_decide; cbn [snd]; now apply lookup_insert_ne.
Defined.

(** ** The lifecycle *)

Lemma run_terminal (s : list op) (q : phase) :
  run Terminal s = Some q -> s = [] /\ q = Terminal.
Proof.
  destruct s as [|c s]; simpl.
  - intros [= <-]. now split.
  - destruct c; discriminate.
Qed.

(** Once the instance is initialised: no further [initialize], at most
    one [shutdown], in last position, and the instance is terminal
    exactly when [shutdown] has been called. *)
Lemma run_in_use (s : list op) (p q : phase) :
  p = Initialized \/ p = Processing ->
  run p s = Some q ->
  count Initialize s = 0 /\
  count Shutdown s <= 1 /\
  (forall i, s !! i = Some Shutdown -> length s = S i) /\
  (q = Terminal <-> Shutdown ∈ s) /\
  q <> Created.
Proof.
  revert p. induction s as [|c s IH]; intros p Hp Hrun;
    cbn [run] in Hrun.
  - injection Hrun as <-.
    split; [reflexivity|]. split; [cbn [count]; lia|].
    split; [intros i Hi; discriminate|].
    split; [|destruct Hp; subst; discriminate].
    split.
    + intros ->. destruct Hp; discriminate.
    + intros Hin. inversion Hin.
  - destruct c.
    + destruct Hp; subst; discriminate.
    + assert (Hrun' : run Processing s = Some q)
        by (destruct Hp; subst; exact Hrun).
      destruct (IH Processing (or_intror eq_refl) Hrun')
        as (Hi & Hs & Hlast & Hterm & Hq).
      split; [exact Hi|]. split; [exact Hs|].
      split; [|split; [|exact Hq]].
      * intros [|i] Hl; [discriminate|]. cbn in Hl.
        cbn [length]. now rewrite (Hlast i Hl).
      * split.
        -- intros Hq'. right. now apply Hterm.
        -- intros Hin. apply Hterm.
           apply elem_of_cons in Hin as [Hin|Hin];
             [discriminate | assumption].
    + assert (Hrun' : run Terminal s = Some q)
        by (destruct Hp; subst; exact Hrun).
      apply run_terminal in Hrun' as [-> ->].
      split; [reflexivity|]. split; [vm_compute; lia|].
      split; [|split; [|discriminate]].
      * intros [|i] Hl; [reflexivity | discriminate].
      * split; [intros _; left | reflexivity].
Qed.

(** A valid sequence begins with [initialize] and goes on from the
    initialised phase. *)
Lemma valid_sequence_inv (s : list op) :
  valid_sequence s ->
  exists rest q,
    s = Initialize :: rest /\ run Initialized rest = Some q.
Proof.
  intros (p & Hrun & Hp). destruct s as [|c rest]; simpl in Hrun.
  - injection Hrun as <-. congruence.
  - destruct c; try discriminate. simpl in Hrun. now exists rest, p.
Qed.

(** The valid sequences are those of the pattern. *)
Lemma run_in_use_pattern (s : list op) (p q : phase) :
  p = Initialized \/ p = Processing ->
  run p s = Some q ->
  exists n b,
    s = repeat ProcessRecords n ++ (if b : bool then [Shutdown] else []).
Proof.
  revert p. induction s as [|c s IH]; intros p Hp Hrun.
  - now exists 0, false.
  - simpl in Hrun. destruct c.
    + destruct Hp; subst; discriminate.
    + assert (Hrun' : run Processing s = Some q)
        by (destruct Hp; subst; exact Hrun).
      destruct (IH Processing (or_intror eq_refl) Hrun') as (n & b & ->).
      now exists (S n), b.
    + assert (Hrun' : run Terminal s = Some q)
        by (destruct Hp; subst; exact Hrun).
      apply run_terminal in Hrun' as [-> _]. now exists 0, true.
Qed.

Lemma run_pattern_tail (n : nat) (b : bool) (p : phase) :
  p = Initialized \/ p = Processing ->
  exists q,
    run p (repeat ProcessRecords n ++ (if b then [Shutdown] else []))
    = Some q /\ q <> Created.
Proof.
  revert p. induction n as [|n IH]; intros p Hp.
  - destruct b, Hp; subst; simpl; eexists; split;
      try reflexivity; discriminate.
  - destruct (IH Processing (or_intror eq_refl)) as (q & Hq & Hne).
    exists q. split; [|exact Hne].
    destruct Hp; subst; simpl; exact Hq.
Qed.

Lemma valid_sequence_pattern (s : list op) :
  valid_sequence s <-> exists n b, s = pattern n b.
Proof.
  split.
  - intros Hvalid.
    destruct (valid_sequence_inv s Hvalid) as (rest & q & -> & Hrest).
    destruct (run_in_use_pattern rest Initialized q (or_introl eq_refl)
                Hrest) as (n & b & ->).
    now exists n, b.
  - intros (n & b & ->).
    destruct (run_pattern_tail n b Initialized (or_introl eq_refl))
      as (q & Hq & Hne).
    exists q. split; [exact Hq | exact Hne].
Qed.

(** C7.  In every valid driver call sequence [initialize] occurs exactly
    once, as the first call, hence strictly before every
    [process_records] and [shutdown]; [shutdown] occurs at most once and
    only as the last call; nothing follows it, and once it has been
    called no call of any kind extends the sequence to a valid one. *)
Theorem lifecycle_order (s : list op) :
  valid_sequence s ->
  count Initialize s = 1 /\
  s !! 0 = Some Initialize /\
  (forall i c, s !! i = Some c -> c <> Initialize -> 0 < i) /\
  count Shutdown s <= 1 /\
  (forall i, s !! i = Some Shutdown -> length s = S i) /\
  (forall before after, s = before ++ Shutdown :: after -> after = []) /\
  (forall c, Shutdown ∈ s -> ~ valid_sequence (s ++ [c])).
Proof.
  intros Hvalid.
  destruct (valid_sequence_inv s Hvalid) as (rest & q & -> & Hrest).
  destruct (run_in_use rest Initialized q (or_introl eq_refl) Hrest)
    as (Hi & Hs & Hlast & Hterm & Hq).
  assert (Hlast' : forall i,
             (Initialize :: rest) !! i = Some Shutdown ->
             length (Initialize :: rest) = S i).
  { intros [|i] Hl; [discriminate|]. simpl in *. now rewrite (Hlast i Hl). }
  repeat split.
  - simpl. lia.
  - intros [|i] c Hl Hc; [|lia]. simpl in Hl. congruence.
  - simpl. lia.
  - exact Hlast'.
  - intros before after E.
    assert (Hl : (Initialize :: rest) !! length before = Some Shutdown).
    { rewrite E. now rewrite list_lookup_middle. }
    apply Hlast' in Hl. rewrite E in Hl. rewrite length_app in Hl.
    simpl in Hl. destruct after; [reflexivity|]. simpl in Hl. lia.
  - intros c Hin Hvalid'.
    destruct (valid_sequence_inv _ Hvalid') as (rest' & q' & E & Hrest').
    simpl in E. injection E as <-.
    destruct (run_in_use _ Initialized q' (or_introl eq_refl) Hrest')
      as (_ & _ & Hlast2 & _ & _).
    assert (Hin' : Shutdown ∈ rest).
    { apply elem_of_cons in Hin as [Hin|Hin];
        [discriminate | assumption]. }
    apply list_elem_of_lookup in Hin' as (i & Hl).
    assert (Hl2 : (rest ++ [c]) !! i = Some Shutdown).
    { now apply lookup_app_l_Some. }
    apply Hlast2 in Hl2. rewrite length_app in Hl2. simpl in Hl2.
    apply Hlast in Hl. lia.
Qed.

Lemma lifecycle_order_witness :
  count Initialize [Initialize; ProcessRecords; ProcessRecords; Shutdown] = 1
  /\ count Shutdown [Initialize; ProcessRecords; ProcessRecords; Shutdown]
     <= 1.
Proof.
  assert (Hvalid : valid_sequence
                     [Initialize; ProcessRecords; ProcessRecords; Shutdown]).
  { exists Terminal. split; [reflexivity | discriminate]. }
  destruct (lifecycle_order _ Hvalid) as (Hi & _ & _ & Hs & _).
  split; [exact Hi | exact Hs].
Defined.

(** * Further properties of the adapter *)

(** ** Failures before the delegate is reached *)









(** ** Construction and what follows it *)

(** Writing a cell does not change what other objects show. *)
Lemma lookup_attr_insert_other (h : store) (l : loc) (c : cell)
    (o : value) (name : string) :
  o <> VRef l ->
  lookup_attr (<[l := c]> h) o name = lookup_attr h o name.
Proof.
  intros Hne. destruct o as [| | | |l'| |]; try reflexivity.
  unfold lookup_attr. rewrite lookup_insert_ne; [reflexivity|].
  intros ->. now apply Hne.
Qed.

Lemma lookup_attrs_insert_other (h : store) (l : loc) (c : cell)
    (o : value) (names : list string) :
  o <> VRef l ->
  lookup_attrs (<[l := c]> h) o names = lookup_attrs h o names.
Proof.
  intros Hne. induction names as [|n ns IH]; [reflexivity|].
  cbn [lookup_attrs]. rewrite lookup_attr_insert_other by assumption.
  now rewrite IH.
Qed.

(** An object that has an attribute is not at a free location. *)
Lemma has_attr_not_free (h : store) (l : loc) (o : value)
    (name : string) (v : value) :
  h !! l = None -> lookup_attr h o name = Some v -> o <> VRef l.
Proof.
  intros Hfree Hv ->.
  apply lookup_attr_instance in Hv as (l' & c & d & [= <-] & Hl).
  congruence.
Qed.

Lemma has_attrs_not_free (h : store) (l : loc) (o : value)
    (n : string) (ns : list string) (args : list value) :
  h !! l = None -> lookup_attrs h o (n :: ns) = Some args -> o <> VRef l.
Proof.
  intros Hfree Hargs. cbn [lookup_attrs] in Hargs.
  destruct (lookup_attr h o n) as [v|] eqn:Hv; [|discriminate].
  now apply (has_attr_not_free h l o n v).
Qed.

Lemma legacy_fields_cons (o : op) :
  exists n ns, legacy_fields o = n :: ns.
Proof. destruct o; cbn [legacy_fields]; eauto. Qed.






(** X7.  An adapter just built on a delegate that has the legacy
    operation serves a well-formed request at once: building it and
    running the operation allocates, stores the delegate, and makes the
    one call of the delegate's operation with the request's fields. *)
Theorem fresh_adapter_forwards
    (o : op) (sem : semantics) (d request f : value)
    (args : list value) (g : fn_id) (actual : list value) (w : world) :
  lookup_attr (heap w) d (legacy_name o) = Some f ->
  lookup_attrs (heap w) request (legacy_fields o) = Some args ->
  callable f args = Some (g, actual) ->
  let l := fresh (dom (heap w)) in
  let h1 :=
    <[l := Instance V1toV2Processor.cls (<["delegate" := d]> ∅)]>
      (heap w) in
  (self <- V1toV2Processor.new d ;; adapter o self request) sem w
  = (seen_by_caller (sem g actual h1).1,
     World (sem g actual h1).2
           (trace w ++ [EvNew l V1toV2Processor.cls;
                        EvStore l "delegate" d; EvCall f args])).
Proof.
  intros Hf Hargs Hc l h1.
  assert (Hfree : heap w !! l = None).
  { apply not_elem_of_dom. apply is_fresh. }
  assert (Hd : d <> VRef l) by now apply (has_attr_not_free _ _ _ _ _ Hfree Hf).
  assert (Hreq : request <> VRef l).
  { destruct (legacy_fields_cons o) as (n & ns & E). rewrite E in Hargs.
    now apply (has_attrs_not_free _ _ _ _ _ _ Hfree Hargs). }
  unfold bind at 1. pose proof (new_run sem d w) as Hnew.
  cbv zeta in Hnew. fold l in Hnew. rewrite Hnew. fold h1.
  rewrite (adapter_run o sem (VRef l) request _ d f args g actual).
  - cbn [heap trace]. now rewrite <- app_assoc.
  - cbn [heap]. constructor.
    + unfold h1, lookup_attr. rewrite lookup_insert_eq.
      now rewrite lookup_insert_eq.
    + unfold h1. now rewrite lookup_attr_insert_other.
    + unfold h1. now rewrite lookup_attrs_insert_other.
    + exact Hc.
Qed.

Lemma fresh_adapter_forwards_witness :
  exists l,
    trace
      ((self <- V1toV2Processor.new (VRef Faulty.legacy_loc) ;;
        adapter Initialize self (VRef Faulty.init_input_loc))
         Example.legacy_sem Faulty.w).2
    = [EvNew l V1toV2Processor.cls;
       EvStore l "delegate" (VRef Faulty.legacy_loc);
       EvCall (VBound "LegacyProcessor.initialize" Faulty.legacy_loc)
         [VStr "shard-0001"]].
Proof.
  eexists.
  rewrite (fresh_adapter_forwards Initialize Example.legacy_sem
             (VRef Faulty.legacy_loc) (VRef Faulty.init_input_loc)
             (VBound "LegacyProcessor.initialize" Faulty.legacy_loc)
             [VStr "shard-0001"] "LegacyProcessor.initialize"
             [VRef Faulty.legacy_loc; VStr "shard-0001"] Faulty.w);
    reflexivity.
Defined.

(** X8.  Two adapters built on the same delegate are two different
    objects, both new, and both hold the very same delegate
    reference. *)
Theorem two_adapters_share_the_delegate
    (sem : semantics) (d : value) (w : world) :
  let result :=
    (a1 <- V1toV2Processor.new d ;;
     a2 <- V1toV2Processor.new d ;;
     ret (a1, a2)) sem w in
  exists l1 l2,
    result.1 = Returned (VRef l1, VRef l2) /\
    l1 <> l2 /\
    heap w !! l1 = None /\ heap w !! l2 = None /\
    lookup_attr (heap result.2) (VRef l1) "delegate" = Some d /\
    lookup_attr (heap result.2) (VRef l2) "delegate" = Some d.
Proof.
  intros result.
  pose proof (new_run sem d w) as Hnew. cbv zeta in Hnew.
  set (l1 := fresh (dom (heap w))) in *.
  set (w1 := World
               (<[l1 := Instance V1toV2Processor.cls (<["delegate" := d]> ∅)]>
                  (heap w))
               (trace w ++ [EvNew l1 V1toV2Processor.cls;
                            EvStore l1 "delegate" d])) in *.
  pose proof (new_run sem d w1) as Hnew'. cbv zeta in Hnew'.
  set (l2 := fresh (dom (heap w1))) in *.
  assert (Hrun : result =
    (Returned (VRef l1, VRef l2),
     World (<[l2 := Instance V1toV2Processor.cls (<["delegate" := d]> ∅)]>
              (heap w1))
           (trace w1 ++ [EvNew l2 V1toV2Processor.cls;
                         EvStore l2 "delegate" d]))).
  { subst result. unfold bind, ret. rewrite Hnew. cbn beta iota.
    rewrite Hnew'. reflexivity. }
  rewrite Hrun. cbn [fst snd heap].
  assert (Hfree1 : heap w !! l1 = None).
  { apply not_elem_of_dom. apply is_fresh. }
  assert (Hfree2 : heap w1 !! l2 = None).
  { apply not_elem_of_dom. apply is_fresh. }
  assert (Hne : l1 <> l2).
  { intros E. rewrite <- E in Hfree2. unfold w1 in Hfree2.
    cbn [heap] in Hfree2. rewrite lookup_insert_eq in Hfree2.
    discriminate. }
  exists l1, l2. split; [reflexivity|]. split; [exact Hne|].
  split; [exact Hfree1|]. split; [|split].
  - unfold w1 in Hfree2. cbn [heap] in Hfree2.
    now rewrite lookup_insert_ne in Hfree2.
  - unfold lookup_attr. rewrite lookup_insert_ne by congruence.
    unfold w1. cbn [heap]. rewrite lookup_insert_eq.
    now rewrite lookup_insert_eq.
  - unfold lookup_attr. rewrite lookup_insert_eq.
    now rewrite lookup_insert_eq.
Qed.

(** ** One operation after another *)


